(** * girder: the collection model of the web client and the provisioning playbook

    Two artefacts are verified here.

    - [clients/web/src/models/CollectionModel.js]: a Backbone model whose one
      method, [fetch], reads [collection/<_id>] through [girder.restRequest]
      and reacts to the two ways the request can end.
    - The Ansible play that provisions a Girder server, together with the
      task list of the [girder] role it applies.

    The JavaScript is embedded as state-passing functions over the model
    object and a log of what the method does to the outside (signals emitted,
    requests sent).  The playbook is embedded as data, with the order in which
    Ansible runs the sections of a play written out. *)

From stdpp Require Import base strings list gmap pretty.
From Stdlib Require Import ZArith.

Local Open Scope string_scope.
Local Open Scope list_scope.
Local Set Warnings "-register-all".

(* ===================================================================== *)
(** ** JavaScript numbers *)
(* ===================================================================== *)

(** A number of a JSON text is read as the nearest double and printed
    with as few digits as read back as that double.  Only whole numbers
    are covered; the functions below work on their absolute value. *)
Module Number.
Local Open Scope Z_scope.

(** The double nearest to a natural number [a], ties to the even
    mantissa; [None] when it is beyond the largest double. *)
Definition nearest_double (a : Z) : option Z :=
  if a <? 2 ^ 53 then Some a
  else
    let e := Z.log2 a - 52 in
    let q := a / 2 ^ e in
    let r := a mod 2 ^ e in
    let half := 2 ^ (e - 1) in
    let m := if r <? half then q
             else if half <? r then q + 1
             else if Z.even q then q else q + 1 in
    let v := m * 2 ^ e in
    if v <? 2 ^ 1024 then Some v else None.

(** Number of decimal digits of a positive number. *)
Fixpoint count_digits (fuel : nat) (a : Z) : Z :=
  match fuel with
  | O => 0
  | S fuel' => if a <? 10 then 1 else 1 + count_digits fuel' (a / 10)
  end.

Definition digits_of (a : Z) : Z := count_digits (Z.to_nat (Z.log2 a) + 1) a.

(** Whether the decimal [c] reads back as the double [v]. *)
Definition reads_as (v c : Z) : bool :=
  let e := Z.log2 v - 52 in
  let m := v / 2 ^ e in
  let up := 4 * v + 2 * 2 ^ e in
  let down := 4 * v - (if m =? 2 ^ 52 then 2 ^ e else 2 * 2 ^ e) in
  if Z.even m then (down <=? 4 * c) && (4 * c <=? up)
  else (down <? 4 * c) && (4 * c <? up).

(** The shortest decimal [s * 10 ^ t] that reads back as [v], trying [k]
    significant digits and then more. *)
Fixpoint shortest (fuel : nat) (v D k : Z) : Z * Z :=
  match fuel with
  | O => (v, 0)
  | S fuel' =>
      let t := D - k in
      let p := 10 ^ t in
      let lo := v / p * p in
      let hi := lo + p in
      let pick c := (c / p, t) in
      match reads_as v lo, reads_as v hi with
      | true, true =>
          if v - lo <? hi - v then pick lo
          else if hi - v <? v - lo then pick hi
          else if Z.even (lo / p) then pick lo else pick hi
      | true, false => pick lo
      | false, true => pick hi
      | false, false => shortest fuel' v D (k + 1)
      end
  end.

(** Strip the zeros at the end of [s], counting them into [t]. *)
Fixpoint trim (fuel : nat) (s t : Z) : Z * Z :=
  match fuel with
  | O => (s, t)
  | S fuel' => if (s mod 10 =? 0) && (0 <? s) then trim fuel' (s / 10) (t + 1) else (s, t)
  end.

(** [Number.prototype.toString] on the double [v], a natural number. *)
Definition print_double (v : Z) : string :=
  if v <? 2 ^ 53 then pretty v
  else
    let D := digits_of v in
    let '(s0, t0) := shortest (Z.to_nat D) v D 1 in
    let '(s, t) := trim 20 s0 t0 in
    let k := digits_of s in
    let n := k + t in
    if n <=? 21 then pretty (s * 10 ^ t)
    else
      let text := pretty s in
      match text with
      | String d "" => String d "" +:+ "e+" +:+ pretty (n - 1)
      | String d rest => String d ("." +:+ rest) +:+ "e+" +:+ pretty (n - 1)
      | "" => ""
      end.

Definition print_number (n : Z) : string :=
  match nearest_double (Z.abs n) with
  | None => if n <? 0 then "-Infinity" else "Infinity"
  | Some v => if n <? 0 then "-" +:+ print_double v else print_double v
  end.

(** Two numerals denote the same number when they read as the same
    double. *)
Definition same_number (x y : Z) : bool :=
  (Z.sgn x =? Z.sgn y) &&
  match nearest_double (Z.abs x), nearest_double (Z.abs y) with
  | Some a, Some b => a =? b
  | None, None => true
  | _, _ => false
  end.

End Number.

(* ===================================================================== *)
(** ** JavaScript values *)
(* ===================================================================== *)

Module JS.

(** The values a JSON response and a model attribute can hold.  [VNum n]
    is the number the numeral [n] is read as, a whole number; an object
    lists its own properties in enumeration order.  Strings are sequences
    of bytes, the UTF-8 encoding of the text. *)
Inductive jsval : Type :=
  | VUndefined
  | VNull
  | VBool (b : bool)
  | VNum (n : Z)
  | VStr (s : string)
  | VArr (items : list jsval)
  | VObj (fields : list (string * jsval)).

(** [o[k]] on the property list of an object: the last binding of [k] is
    the one an object built by successive assignments ends up with. *)
Fixpoint obj_get (k : string) (fields : list (string * jsval)) : option jsval :=
  match fields with
  | [] => None
  | (k', v) :: rest =>
      match obj_get k rest with
      | Some w => Some w
      | None => if String.eqb k k' then Some v else None
      end
  end.

(** [String(v)], the conversion the [+] operator applies to its right
    operand when the left one is a string.  An array joins its elements
    with commas, printing [null] and [undefined] elements as nothing.  An
    object prints as below when it can be converted at all: see
    [converts]. *)
Fixpoint to_string (v : jsval) : string :=
  match v with
  | VUndefined => "undefined"
  | VNull => "null"
  | VBool true => "true"
  | VBool false => "false"
  | VNum n => Number.print_number n
  | VStr s => s
  | VArr items =>
      (fix join (l : list jsval) : string :=
         match l with
         | [] => ""
         | [x] => match x with VUndefined | VNull => "" | _ => to_string x end
         | x :: rest =>
             (match x with VUndefined | VNull => "" | _ => to_string x end)
               +:+ "," +:+ join rest
         end) items
  | VObj _ => "[object Object]"
  end.

(** Whether the conversion to a string goes through.  An object is
    converted by its [valueOf], then its [toString]: the inherited
    [valueOf] returns the object itself, which does not count, and a
    [toString] of its own, being data and not a function, cannot be
    called, so that JavaScript throws a TypeError; without one the
    inherited [toString] answers.  An array converts its elements in
    turn. *)
Fixpoint converts (v : jsval) : bool :=
  match v with
  | VArr items =>
      (fix each (l : list jsval) : bool :=
         match l with
         | [] => true
         | x :: rest => converts x && each rest
         end) items
  | VObj fields =>
      match obj_get "toString" fields with
      | Some _ => false
      | None => true
      end
  | _ => true
  end.

(** ['s' + v] for a string literal on the left, when [v] converts. *)
Definition concat (s : string) (v : jsval) : string := s +:+ to_string v.

(** The number of bytes of the white space character a string starts
    with, 0 if it starts with none.  White space is what the regular
    expression [\s] matches: tab, line feed, vertical tab, form feed,
    carriage return, space, U+00A0, U+1680, U+2000 to U+200A, U+2028,
    U+2029, U+202F, U+205F, U+3000 and U+FEFF. *)
Definition space_width (s : string) : nat :=
  match s with
  | String c1 (String c2 (String c3 _)) =>
      let b1 := Ascii.N_of_ascii c1 in
      let b2 := Ascii.N_of_ascii c2 in
      let b3 := Ascii.N_of_ascii c3 in
      if ((9 <=? b1) && (b1 <=? 13) || (b1 =? 32))%N then 1
      else if ((b1 =? 194) && (b2 =? 160))%N then 2
      else if ((b1 =? 225) && (b2 =? 154) && (b3 =? 128))%N then 3
      else if ((b1 =? 226) && (b2 =? 128) &&
               ((128 <=? b3) && (b3 <=? 138) || (b3 =? 168) || (b3 =? 169)
                || (b3 =? 175)))%N then 3
      else if ((b1 =? 226) && (b2 =? 129) && (b3 =? 159))%N then 3
      else if ((b1 =? 227) && (b2 =? 128) && (b3 =? 128))%N then 3
      else if ((b1 =? 239) && (b2 =? 187) && (b3 =? 191))%N then 3
      else 0
  | String c1 (String c2 "") =>
      let b1 := Ascii.N_of_ascii c1 in
      let b2 := Ascii.N_of_ascii c2 in
      if ((9 <=? b1) && (b1 <=? 13) || (b1 =? 32))%N then 1
      else if ((b1 =? 194) && (b2 =? 160))%N then 2
      else 0
  | String c1 "" =>
      let b1 := Ascii.N_of_ascii c1 in
      if ((9 <=? b1) && (b1 <=? 13) || (b1 =? 32))%N then 1 else 0
  | "" => 0
  end.

(** [words_from s skip word gap]: the pieces of [s] between runs of white
    space, [word] being the piece read so far, [skip] the bytes left of a
    white space character already met, and [gap] telling whether the last
    character was white space. *)
Fixpoint words_from (s : string) (skip : nat) (word : string) (gap : bool)
    : list string :=
  match s with
  | "" => [word]
  | String c rest =>
      match skip with
      | S k => words_from rest k word gap
      | O =>
          match space_width s with
          | O => words_from rest 0 (word +:+ String c "") false
          | S k =>
              if gap then words_from rest k word true
              else word :: words_from rest k "" true
          end
      end
  end.

(** [s.split(/\s+/)]. *)
Definition words (s : string) : list string := words_from s 0 "" false.

(** Underscore's [_.isEqual]: deep comparison.  Two arrays are equal when
    they agree element by element; two objects when they have as many
    properties and every property of the first is an equal property of the
    second. *)
Fixpoint isEqual (a b : jsval) {struct a} : bool :=
  match a, b with
  | VUndefined, VUndefined => true
  | VNull, VNull => true
  | VBool x, VBool y => Bool.eqb x y
  | VNum x, VNum y => Number.same_number x y
  | VStr x, VStr y => String.eqb x y
  | VArr xs, VArr ys =>
      (fix each (l r : list jsval) : bool :=
         match l, r with
         | [], [] => true
         | x :: l', y :: r' => isEqual x y && each l' r'
         | _, _ => false
         end) xs ys
  | VObj fa, VObj fb =>
      Nat.eqb (length fa) (length fb) &&
      (fix each (l : list (string * jsval)) : bool :=
         match l with
         | [] => true
         | (k, x) :: l' =>
             match obj_get k fb with
             | Some y => isEqual x y
             | None => false
             end && each l'
         end) fa
  | _, _ => false
  end.

End JS.

(* ===================================================================== *)
(** ** The Backbone model object *)
(* ===================================================================== *)

Module Backbone.
Import JS.

(** One event fired by [trigger]: the event name, the arguments handed to
    the listeners after it, and the attributes a listener reading the model
    at that moment finds.  The model itself, which Backbone passes as the
    first argument of its change events, is represented by [seen]. *)
Record emission : Type := Emission {
  signal : string;
  payload : list jsval;
  seen : gmap string jsval
}.

(** A request handed to the network layer. *)
Record request : Type := Request {
  verb : string;
  options : list (string * jsval)
}.

(** The model [this] of a method call and what the call has done so far:
    [attributes] holds the properties of Backbone's [this.attributes], an
    object made with Object.prototype for its prototype; [emitted] and
    [network] are logs, oldest entry first.  The prototype is not part of
    the state: assigning [__proto__] is modelled by what it does to the
    properties, which is nothing, and what [get] would inherit from a
    prototype put in its place is outside the model. *)
Record world : Type := World {
  attributes : gmap string jsval;
  emitted : list emission;
  network : list request
}.

(** Code running against a model. *)
Definition M (A : Type) : Type := world -> A * world.

#[global] Instance M_ret : MRet M := fun A (x : A) (w : world) => (x, w).
#[global] Instance M_bind : MBind M :=
  fun A B (f : A -> M B) (m : M A) (w : world) => let '(x, w') := m w in f x w'.

Definition exec {A : Type} (m : M A) (w : world) : world := snd (m w).

(** [this.get(attr)]: [this.attributes[attr]], for a name that is an
    attribute or that nothing is inherited under. *)
Definition get (attr : string) : M jsval :=
  fun w => (default VUndefined (attributes w !! attr), w).

(** [this.trigger(name, args...)].  Backbone takes the name for a list of
    event names separated by white space and fires each of them, with the
    same arguments. *)
Definition trigger (name : string) (args : list jsval) : M unit :=
  fun w =>
    (tt, World (attributes w)
               (emitted w ++
                  map (fun part => Emission part args (attributes w)) (words name))
               (network w)).

(** The hash [set] works on.  [set(key)] returns at once when [key == null];
    an object (an array is one) is taken as the hash itself; any other
    value is the name of a single attribute, put into a new hash with the
    missing second argument for its value.  On a new hash the name
    [__proto__] stands for the prototype, which ignores the assignment of
    [undefined]: the hash stays empty. *)
Definition attrs_of (key : jsval) : option (list (string * jsval)) :=
  match key with
  | VUndefined | VNull => None
  | VObj fields => Some fields
  | VArr items => Some (imap (fun i v => (pretty i, v)) items)
  | VBool _ | VNum _ | VStr _ =>
      if String.eqb (to_string key) "__proto__" then Some []
      else Some [(to_string key, VUndefined)]
  end.

(** The names [this.attributes] inherits from Object.prototype: reading
    one that is not an attribute yields a function. *)
Definition inherited : list string :=
  ["constructor"; "hasOwnProperty"; "isPrototypeOf"; "propertyIsEnumerable";
   "toLocaleString"; "toString"; "valueOf"; "__defineGetter__";
   "__defineSetter__"; "__lookupGetter__"; "__lookupSetter__"].

(** Whether [_.isEqual(current[attr], val)] fails.  Where [current] has no
    such property the value compared is the inherited function, which
    equals no value of a hash, then for [__proto__] the prototype, an
    object without properties to enumerate, and else [undefined]. *)
Definition differs (current : gmap string jsval) (attr : string)
    (val : jsval) : bool :=
  match current !! attr with
  | Some v => negb (isEqual v val)
  | None =>
      if String.eqb attr "__proto__" then negb (isEqual (VObj []) val)
      else if existsb (String.eqb attr) inherited then true
      else negb (isEqual VUndefined val)
  end.

(** The loop of [set] over the hash: every attribute is assigned, and the
    ones whose value differs from the current one are noted in [changes].
    The assignment [current[attr] = val] makes or updates a property,
    except for [__proto__], which it hands to the prototype and which
    leaves the properties as they are. *)
Fixpoint assign (attrs : list (string * jsval))
    (current : gmap string jsval) (changes : list string)
    : gmap string jsval * list string :=
  match attrs with
  | [] => (current, changes)
  | (attr, val) :: rest =>
      assign rest
        (if String.eqb attr "__proto__" then current
         else <[attr := val]> current)
        (if differs current attr val then changes ++ [attr] else changes)
  end.

(** The empty options object [set] makes up when it is given none. *)
Definition no_options : jsval := VObj [].

(** ['change:<attr>'] for every noted attribute, with its value now. *)
Fixpoint announce (changes : list string) : M unit :=
  match changes with
  | [] => mret tt
  | attr :: rest =>
      val ← get attr;
      trigger ("change:" +:+ attr) [val; no_options];;
      announce rest
  end.

(** [this.set(key)] with no further argument, on a model that defines no
    [validate]: assign, announce each change, then ['change'] once if
    anything changed. *)
Definition set (key : jsval) : M unit :=
  match attrs_of key with
  | None => mret tt
  | Some attrs =>
      fun w =>
        let '(current, changes) := assign attrs (attributes w) [] in
        (announce changes;;
         match changes with
         | [] => mret tt
         | _ :: _ => trigger "change" [no_options]
         end) (World current (emitted w) (network w))
  end.

End Backbone.

(* ===================================================================== *)
(** ** clients/web/src/models/CollectionModel.js *)
(* ===================================================================== *)

Module Girder.
Import JS Backbone.

(** What jQuery tells an [error] callback about a request that failed. *)
Record failure : Type := Failure {
  status : Z;
  textStatus : string;
  errorThrown : string
}.

(** How a request ends. *)
Inductive outcome : Type :=
  | Succeeded (resp : jsval)
  | Failed (err : failure).

(** The object [restRequest] returns: the callbacks registered on it so
    far, in registration order. *)
Record promise : Type := Promise {
  done_callbacks : list (jsval -> M unit);
  error_callbacks : list (failure -> M unit)
}.

(** Modelled from the spec: [girder.restRequest] is defined in the web
    client's [rest.js], which is not among the sources.  The spec has it
    issue one read request for the path it is given, against the REST
    backend; the options are logged as passed, and the returned promise has
    no callback yet. *)
Definition restRequest (opts : list (string * jsval)) : M promise :=
  fun w =>
    (Promise [] [],
     World (attributes w) (emitted w) (network w ++ [Request "GET" opts])).

(** [xhr.done(callback)] and [xhr.error(callback)]: register and return
    the same object, so that the calls chain. *)
Definition done (callback : jsval -> M unit) (xhr : promise) : promise :=
  Promise (done_callbacks xhr ++ [callback]) (error_callbacks xhr).

Definition error (callback : failure -> M unit) (xhr : promise) : promise :=
  Promise (done_callbacks xhr) (error_callbacks xhr ++ [callback]).

(** Run callbacks one after the other on the same argument. *)
Fixpoint fire {A : Type} (callbacks : list (A -> M unit)) (arg : A) : M unit :=
  match callbacks with
  | [] => mret tt
  | callback :: rest => callback arg;; fire rest arg
  end.

(** The request ends: the callbacks registered for that ending run. *)
Definition settle (xhr : promise) (o : outcome) : M unit :=
  match o with
  | Succeeded resp => fire (done_callbacks xhr) resp
  | Failed err => fire (error_callbacks xhr) err
  end.

(** The two callbacks of [fetch].  [_.bind(..., this)] makes them run
    against the model [fetch] was called on. *)
Definition fetch_done (resp : jsval) : M unit :=
  set resp;;
  trigger "g:fetched" [].

Definition fetch_error (_ : failure) : M unit :=
  trigger "g:error" [].

(** [CollectionModel.fetch], for an identifier that [+] can convert to a
    string ([fetch_call] below adds the other case).  The JavaScript method
    returns nothing and leaves the promise with jQuery; here the promise is
    the result, for the environment to settle. *)
Definition fetch : M promise :=
  id ← get "_id";
  xhr ← restRequest [("path", VStr (concat "collection/" id));
                     ("error", VNull)];
  mret (error fetch_error (done fetch_done xhr)).

(** One invocation of [fetch] whose request ends with [o]. *)
Definition fetch_then (o : outcome) : M unit :=
  xhr ← fetch;
  settle xhr o.

(** How a call ends for its caller. *)
Inductive completion (A : Type) : Type :=
  | Returned (x : A)
  | Threw (exception : string).
Arguments Returned {A} x.
Arguments Threw {A} exception.

(** A call of the method on any model.  The path expression
    ['collection/' + this.get('_id')] is evaluated first, and JavaScript
    throws a TypeError when the identifier does not convert: the exception
    leaves [fetch] before a request is made or a callback registered. *)
Definition fetch_call : M (completion promise) :=
  id ← get "_id";
  if converts id
  then xhr ← fetch; mret (Returned xhr)
  else mret (Threw "TypeError").

(** One call; the request, if the call made one, ends with [o]. *)
Definition fetch_call_then (o : outcome) : M unit :=
  r ← fetch_call;
  match r with
  | Returned xhr => settle xhr o
  | Threw _ => mret tt
  end.

(** A model as constructed, with nothing emitted or requested so far. *)
Definition fresh (attrs : gmap string jsval) : world := World attrs [] [].

(** How many times a signal occurs in a log. *)
Definition occurrences (name : string) (log : list emission) : nat :=
  length (filter (fun e => signal e = name) log).

End Girder.

(* ===================================================================== *)
(** ** The provisioning playbook *)
(* ===================================================================== *)

Module Ansible.

(** A templated string: literal text and [{{ variable }}] references; the
    third form is [{{ variable|default(omit) }}]. *)
Inductive piece : Type :=
  | Text (s : string)
  | Var (x : string)
  | VarOrOmit (x : string).

Definition template : Type := list piece.

Inductive resource_state : Type := present | absent.

Record user_spec : Type := UserSpec {
  firstName : string;
  lastName : string;
  login : string;
  user_password : string;
  email : string;
  admin : bool
}.

Record assetstore_spec : Type := AssetstoreSpec {
  store_name : string;
  store_type : string;
  root : template;
  current : bool
}.

(** What a [girder] task declares. *)
Inductive resource : Type :=
  | User (u : user_spec)
  | Assetstore (a : assetstore_spec)
  | Plugins (names : list string).

(** The module a task calls, with its arguments. *)
Inductive action : Type :=
  | apt (name : option template) (update_cache : bool)
  | git (repo : string) (dest version update force : template)
  | pip (name : string)
  | girder (port : Z) (auth : option (string * string))
      (res : resource) (state : resource_state).

Record task : Type := Task {
  task_name : string;
  act : action;
  become_user : option string;
  with_items : list string;
  register : option string;
  notify : option string
}.

Record role_ref : Type := Role {
  role : string;
  role_become_user : option string
}.

Record play : Type := Play {
  hosts : string;
  vars : list (string * bool);
  pre_tasks : list task;
  roles : list role_ref;
  tasks : list task;
  post_tasks : list task
}.

(** The task file of the [girder] role. *)
Definition girder_role_tasks : list task :=
  [ Task "Install Girder system dependencies"
      (apt (Some [Var "item"]) false) (Some "root")
      ["git"; "libffi-dev"; "build-essential"; "python2.7-dev";
       "python-pip"; "libjpeg-dev"; "libssl-dev"; "zlib1g-dev"]
      None None;
    Task "Download Girder"
      (git "https://github.com/girder/girder.git"
         [Var "girder_path"] [Var "girder_version"]
         [VarOrOmit "girder_update"] [VarOrOmit "girder_force"])
      None [] (Some "vc") (Some "Build Girder (web)") ].

Definition admin_user : user_spec :=
  UserSpec "Girder" "Administrator" "girder" "girder"
    "girder@girder.girder" true.

Definition primary_assetstore : assetstore_spec :=
  AssetstoreSpec "Primary assetstore" "filesystem"
    [Var "ansible_user_dir"; Text "/assetstore"] true.

(** The play. *)
Definition playbook : play :=
  Play "all"
    [("girder_update", false); ("girder_force", false)]
    [ Task "Update package cache" (apt None true) (Some "root") [] None None ]
    [ Role "Stouts.mongodb" (Some "root"); Role "girder" None ]
    []
    [ Task "Install girder-client" (pip "girder-client") (Some "root")
        [] None None;
      Task "Create admin user"
        (girder 8080 None (User admin_user) present) None [] None None;
      Task "Setup filesystem assetstore"
        (girder 8080 (Some ("girder", "girder"))
           (Assetstore primary_assetstore) present) None [] None None;
      Task "Enable gravatar plugin"
        (girder 8080 (Some ("girder", "girder"))
           (Plugins ["gravatar"]) present) None [] None None ].

(** The task files the roles of the play resolve to: the one of the
    [girder] role is the list above, any other role is installed from
    elsewhere and looked up in [galaxy]. *)
Definition role_tasks (galaxy : string -> list task) (r : role_ref) : list task :=
  if String.eqb (role r) "girder" then girder_role_tasks else galaxy (role r).

(** The order in which Ansible runs the tasks of a play: [pre_tasks], the
    roles in the order listed, [tasks], [post_tasks].  A handler a task
    notifies runs when the section of the task ends; handlers are not tasks
    of the sequence and do not appear in it. *)
Definition run_order (galaxy : string -> list task) (p : play) : list task :=
  pre_tasks p ++ flat_map (role_tasks galaxy) (roles p) ++ tasks p ++ post_tasks p.

(** A template with its variables looked up in [facts]. *)
Definition render (facts : string -> string) (t : template) : string :=
  foldr (fun p rest =>
           match p with
           | Text s => s +:+ rest
           | Var x | VarOrOmit x => facts x +:+ rest
           end) "" t.

(** The arguments a task with [with_items] calls its module with, one per
    item, [{{ item }}] standing for the item; a task without items calls
    it once. *)
Definition per_item (facts : string -> string) (items : list string)
    (arg : template) : list string :=
  match items with
  | [] => [render facts arg]
  | _ :: _ =>
      map (fun item =>
             render (fun x => if String.eqb x "item" then item else facts x) arg)
          items
  end.

(** What a task does, as the steps the provisioning is described in. *)
Inductive step : Type :=
  | RefreshPackageCache
  | InstallPackages (packages : list string)
  | CloneSource (repo : string) (version : string)
  | InstallLibrary (name : string)
  | EnsureUser (who : string) (state : resource_state)
  | EnsureAssetstore (which : string) (state : resource_state)
  | EnsurePlugins (names : list string) (state : resource_state).

Definition step_of (facts : string -> string) (t : task) : step :=
  match act t with
  | apt None true => RefreshPackageCache
  | apt None false => InstallPackages []
  | apt (Some name) _ => InstallPackages (per_item facts (with_items t) name)
  | git repo _ version _ _ => CloneSource repo (render facts version)
  | pip name => InstallLibrary name
  | girder _ _ (User u) st => EnsureUser (login u) st
  | girder _ _ (Assetstore a) st => EnsureAssetstore (store_name a) st
  | girder _ _ (Plugins names) st => EnsurePlugins names st
  end.

(** The declarations made through the [girder] module, in task order. *)
Definition declarations (l : list task) : list (resource * resource_state) :=
  omap (fun t => match act t with
                 | girder _ _ res st => Some (res, st)
                 | _ => None
                 end) l.

(** *** The administrative state of the provisioned service *)

Record stored_user : Type := StoredUser {
  su_firstName : string;
  su_lastName : string;
  su_password : string;
  su_email : string;
  su_admin : bool
}.

Record stored_assetstore : Type := StoredAssetstore {
  sa_type : string;
  sa_root : string
}.

Record server : Type := Server {
  users : gmap string stored_user;
  assetstores : gmap string stored_assetstore;
  current_assetstore : option string;
  plugins : gset string
}.

#[global] Instance stored_user_eq_dec : EqDecision stored_user.
Proof. solve_decision. Defined.
#[global] Instance stored_assetstore_eq_dec : EqDecision stored_assetstore.
Proof. solve_decision. Defined.
#[global] Instance server_eq_dec : EqDecision server.
Proof. solve_decision. Defined.

(** Modelled from the spec: the [girder] module of the provisioning tool
    is not among the sources.  The spec gives its calls present/absent
    state semantics: [present] leaves the declared resource in the service
    as declared, [absent] leaves it out. *)
Definition ensure (facts : string -> string) (res : resource)
    (st : resource_state) (srv : server) : server :=
  match res, st with
  | User u, present =>
      Server (<[login u := StoredUser (firstName u) (lastName u)
                             (user_password u) (email u) (admin u)]> (users srv))
             (assetstores srv) (current_assetstore srv) (plugins srv)
  | User u, absent =>
      Server (delete (login u) (users srv))
             (assetstores srv) (current_assetstore srv) (plugins srv)
  | Assetstore a, present =>
      Server (users srv)
             (<[store_name a := StoredAssetstore (store_type a)
                                  (render facts (root a))]> (assetstores srv))
             (if current a then Some (store_name a) else current_assetstore srv)
             (plugins srv)
  | Assetstore a, absent =>
      Server (users srv)
             (delete (store_name a) (assetstores srv))
             (if decide (current_assetstore srv = Some (store_name a))
              then None else current_assetstore srv)
             (plugins srv)
  | Plugins names, present =>
      Server (users srv) (assetstores srv) (current_assetstore srv)
             (plugins srv ∪ list_to_set names)
  | Plugins names, absent =>
      Server (users srv) (assetstores srv) (current_assetstore srv)
             (plugins srv ∖ list_to_set names)
  end.

(** Modelled from the spec: a call reports a change exactly when it had
    something to do, that is, when the service is not left as it was
    found. *)
Definition changed (before after : server) : bool :=
  bool_decide (before ≠ after).

(** Run declarations in order; the result carries, for each one, whether
    it changed anything. *)
Fixpoint provision (facts : string -> string)
    (l : list (resource * resource_state)) (srv : server)
    : server * list bool :=
  match l with
  | [] => (srv, [])
  | (res, st) :: rest =>
      let srv' := ensure facts res st srv in
      let '(final, flags) := provision facts rest srv' in
      (final, changed srv srv' :: flags)
  end.

End Ansible.

(* ===================================================================== *)
(** ** Vocabulary of the properties *)
(* ===================================================================== *)

Import JS Backbone Girder.

(** The request [fetch] sends for a model in state [w]. *)
Definition request_of (w : world) : request :=
  Request "GET"
    [("path", VStr (concat "collection/" (default VUndefined (attributes w !! "_id"))));
     ("error", VNull)].

(** The attribute names a response assigns when it is handed to [set]. *)
Definition assigned (resp : jsval) : list string :=
  match attrs_of resp with
  | None => []
  | Some attrs => attrs.*1
  end.

(** The value a response assigns to an attribute, if it assigns one. *)
Definition assigns (resp : jsval) (attr : string) : option jsval :=
  match attrs_of resp with
  | None => None
  | Some attrs => obj_get attr attrs
  end.

(** The response body [{a: 1, b: 2}]. *)
Definition resp_ab : jsval := VObj [("a", VNum 1); ("b", VNum 2)].

(** Events fired by [set] for a response, as opposed to the signals of
    [fetch]: the parts of ['change'] and of ['change:<attr>'] for an
    attribute the response assigns. *)
Definition raised_by_set (resp : jsval) (e : emission) : Prop :=
  signal e ∈ words "change"
  \/ exists attr, attr ∈ assigned resp /\ signal e ∈ words ("change:" +:+ attr).

(** The attributes after [set] has been given a response: the response
    wins for what it assigns and the rest is kept; [__proto__] is no
    attribute and is left as it is. *)
Definition merged (resp : jsval) (before : gmap string jsval)
    (attr : string) : option jsval :=
  if String.eqb attr "__proto__" then before !! attr
  else match assigns resp attr with
       | Some v => Some v
       | None => before !! attr
       end.

(** No change event of the response fires one of the two signals of
    [fetch]: no attribute name it assigns has ['g:fetched'] or ['g:error']
    among the parts that ['change:<attr>'] splits into at white space. *)
Definition quiet (resp : jsval) : bool :=
  forallb
    (fun attr =>
       negb (existsb
               (fun part => String.eqb part "g:fetched" || String.eqb part "g:error")
               (words ("change:" +:+ attr))))
    (assigned resp).


(** Two declarations that cannot interfere: they are about resources of
    different kinds. *)
Definition independent (r1 r2 : Ansible.resource) : Prop :=
  match r1, r2 with
  | Ansible.User _, Ansible.User _
  | Ansible.Assetstore _, Ansible.Assetstore _
  | Ansible.Plugins _, Ansible.Plugins _ => False
  | _, _ => True
  end.

(** No two declarations of a list interfere. *)
Fixpoint all_independent
    (l : list (Ansible.resource * Ansible.resource_state)) : Prop :=
  match l with
  | [] => True
  | d :: rest => Forall (fun d' => independent d.1 d'.1) rest /\ all_independent rest
  end.

(** The service already is as a declaration wants it. *)
Definition settled (facts : string -> string)
    (d : Ansible.resource * Ansible.resource_state) (srv : Ansible.server) : Prop :=
  Ansible.ensure facts d.1 d.2 srv = srv.

(** Two invocations of [fetch], the second made once the first has
    completed. *)
Definition fetch_twice (o1 o2 : outcome) : M unit :=
  fetch_then o1;;
  fetch_then o2.

(** Two invocations in flight together; the request of the second
    completes first. *)
Definition fetch_overlapped (o1 o2 : outcome) : M unit :=
  xhr1 ← fetch;
  xhr2 ← fetch;
  settle xhr2 o2;;
  settle xhr1 o1.

(** One invocation, with other code running against the model between the
    call and the completion of the request. *)
Definition fetch_interleaved (between : M unit) (o : outcome) : M unit :=
  xhr ← fetch;
  between;;
  settle xhr o.

(** The tasks written in this repository, in the order they run: those of
    the play and those of the [girder] role. *)
Definition authored_tasks : list Ansible.task :=
  Ansible.pre_tasks Ansible.playbook ++ Ansible.girder_role_tasks
    ++ Ansible.tasks Ansible.playbook ++ Ansible.post_tasks Ansible.playbook.

(** The login and password a task authenticates with. *)
Definition credentials (t : Ansible.task) : option (string * string) :=
  match Ansible.act t with
  | Ansible.girder _ auth _ _ => auth
  | _ => None
  end.

(** The login and password of the administrator a task declares present. *)
Definition declares_admin (t : Ansible.task) : option (string * string) :=
  match Ansible.act t with
  | Ansible.girder _ _ (Ansible.User u) Ansible.present =>
      if Ansible.admin u
      then Some (Ansible.login u, Ansible.user_password u)
      else None
  | _ => None
  end.

(** The task calls a package manager. *)
Definition installs_packages (t : Ansible.task) : bool :=
  match Ansible.act t with
  | Ansible.apt _ _ | Ansible.pip _ => true
  | _ => false
  end.

(* ===================================================================== *)
(** ** The model: how [set] and the callbacks act on the world *)
(* ===================================================================== *)

Section ModelLemmas.

Implicit Types (w : world) (resp : jsval) (attr : string).

Lemma obj_get_None attr (attrs : list (string * jsval)) :
  attr ∉ attrs.*1 -> obj_get attr attrs = None.
Proof.
  induction attrs as [|[k v] rest IH]; simpl; [done|].
  intros Hnotin. apply not_elem_of_cons in Hnotin as [Hne Hrest].
  rewrite (IH Hrest). destruct (String.eqb_spec attr k); congruence.
Qed.




(** The assignment loop is a merge: the hash wins, the rest is kept. *)
Lemma assign_lookup (attrs : list (string * jsval))
    (current : gmap string jsval) (changes : list string) attr :
  (assign attrs current changes).1 !! attr =
    if String.eqb attr "__proto__" then current !! attr
    else match obj_get attr attrs with
         | Some v => Some v
         | None => current !! attr
         end.
Proof.
  revert current changes.
  induction attrs as [|[k v] rest IH]; intros current changes; simpl.
  { by destruct (String.eqb attr "__proto__"). }
  rewrite IH. destruct (String.eqb_spec attr "__proto__") as [Hproto|Hattr].
  { destruct (String.eqb_spec k "__proto__") as [Hk|Hk]; [done|].
    rewrite lookup_insert_ne; [done|congruence]. }
  destruct (obj_get attr rest); [done|].
  destruct (String.eqb_spec attr k) as [->|Hne].
  - destruct (String.eqb_spec k "__proto__"); [done|].
    by rewrite lookup_insert_eq.
  - destruct (String.eqb k "__proto__"); [done|]. by rewrite lookup_insert_ne.
Qed.

(** Only attributes of the hash are noted as changed. *)
Lemma assign_changes (attrs : list (string * jsval))
    (current : gmap string jsval) (changes : list string) attr :
  attr ∈ (assign attrs current changes).2 -> attr ∈ changes \/ attr ∈ attrs.*1.
Proof.
  revert current changes.
  induction attrs as [|[k v] rest IH]; intros current changes; simpl; [auto|].
  intros Hin. apply IH in Hin as [Hin|Hin].
  - destruct (differs current k v); [|auto].
    apply elem_of_app in Hin as [Hin|Hin]; [auto|].
    apply list_elem_of_singleton in Hin as ->. right. apply elem_of_cons. auto.
  - right. apply elem_of_cons. auto.
Qed.

Lemma announce_spec (changes : list string) w :
  exists new,
    announce changes w = (tt, World (attributes w) (emitted w ++ new) (network w))
    /\ Forall (fun e => exists attr, attr ∈ changes
                         /\ signal e ∈ words ("change:" +:+ attr)) new
    /\ Forall (fun e => seen e = attributes w) new.
Proof.
  revert w. induction changes as [|attr rest IH]; intros w; simpl.
  - exists []. rewrite app_nil_r. by destruct w.
  - unfold mbind, M_bind, get, trigger; simpl.
    set (fired := map (fun part =>
                         Emission part
                           [default VUndefined (attributes w !! attr); no_options]
                           (attributes w))
                      (words ("change:" +:+ attr))).
    destruct (IH (World (attributes w) (emitted w ++ fired) (network w)))
      as (new & Hrun & Hchg & Hseen).
    simpl in *. exists (fired ++ new). rewrite Hrun. split; [|split].
    + by rewrite <- app_assoc.
    + apply Forall_app. split.
      * apply Forall_forall. intros e He. unfold fired in He.
        apply list_elem_of_fmap in He as (part & -> & Hpart).
        exists attr. split; [apply elem_of_cons; auto | done].
      * eapply Forall_impl; [exact Hchg|]. intros e (a & Ha & He).
        exists a. split; [apply elem_of_cons; auto | done].
    + apply Forall_app. split; [|done].
      apply Forall_forall. intros e He. unfold fired in He.
      by apply list_elem_of_fmap in He as (part & -> & _).
Qed.

(** [set] writes the merged attributes, sends nothing, and fires only
    change events, each after the write. *)
Lemma set_spec resp w :
  exists new,
    emitted (exec (set resp) w) = emitted w ++ new
    /\ Forall (raised_by_set resp) new
    /\ Forall (fun e => seen e = attributes (exec (set resp) w)) new
    /\ network (exec (set resp) w) = network w
    /\ forall attr,
         attributes (exec (set resp) w) !! attr = merged resp (attributes w) attr.
Proof.
  unfold set, merged, raised_by_set, assigns, assigned, exec.
  destruct (attrs_of resp) as [attrs|]; simpl.
  - pose proof (assign_lookup attrs (attributes w) []) as Hlook.
    pose proof (assign_changes attrs (attributes w) []) as Hsub.
    destruct (assign attrs (attributes w) []) as [current changes]; simpl in *.
    unfold mbind, M_bind.
    destruct (announce_spec changes (World current (emitted w) (network w)))
      as (new & Hrun & Hchg & Hseen).
    assert (Hnew : Forall (fun e => signal e ∈ words "change" \/
                             exists attr, attr ∈ attrs.*1
                               /\ signal e ∈ words ("change:" +:+ attr)) new).
    { eapply Forall_impl; [exact Hchg|]. intros e (a & Ha & He).
      right. exists a. split; [|done].
      destruct (Hsub a Ha) as [Hnil|Hkey]; [by apply elem_of_nil in Hnil|done]. }
    rewrite Hrun; simpl in *. destruct changes as [|c cs]; simpl.
    + exists new. done.
    + unfold trigger; simpl.
      exists (new ++ map (fun part => Emission part [no_options] current)
                         (words "change")).
      rewrite app_assoc. repeat split; try done.
      * apply Forall_app; split; [done|].
        apply Forall_forall. intros e He.
        apply list_elem_of_fmap in He as (part & -> & Hpart). by left.
      * apply Forall_app; split; [done|].
        apply Forall_forall. intros e He.
        by apply list_elem_of_fmap in He as (part & -> & _).
  - exists []. rewrite app_nil_r. repeat split; try by constructor.
    intros attr. by destruct (String.eqb attr "__proto__").
Qed.

End ModelLemmas.

(* ===================================================================== *)
(** ** [fetch] *)
(* ===================================================================== *)

Section Fetch.

Implicit Types (w : world) (resp : jsval) (err : failure) (o : outcome).

(** [fetch] reads [_id], sends one request and registers one callback for
    each ending. *)
Lemma fetch_run w :
  fetch w =
    (Promise [fetch_done] [fetch_error],
     World (attributes w) (emitted w) (network w ++ [request_of w])).
Proof. reflexivity. Qed.

Lemma fetch_then_failed err w :
  exec (fetch_then (Failed err)) w =
    World (attributes w)
          (emitted w ++ [Emission "g:error" [] (attributes w)])
          (network w ++ [request_of w]).
Proof. reflexivity. Qed.

Lemma fetch_then_succeeded resp w :
  exists new,
    let w' := exec (fetch_then (Succeeded resp)) w in
    emitted w' = emitted w ++ new ++ [Emission "g:fetched" [] (attributes w')]
    /\ Forall (raised_by_set resp) new
    /\ Forall (fun e => seen e = attributes w') new
    /\ network w' = network w ++ [request_of w]
    /\ forall attr, attributes w' !! attr = merged resp (attributes w) attr.
Proof.
  destruct (set_spec resp
              (World (attributes w) (emitted w) (network w ++ [request_of w])))
    as (new & Hemit & Hchg & Hseen & Hnet & Hattrs).
  exists new. unfold fetch_then, exec in *.
  unfold mbind, M_bind in *. rewrite fetch_run. simpl.
  unfold fetch_done, mbind, M_bind, trigger.
  destruct (set resp _) as [[] w1]; simpl in *.
  rewrite Hemit, Hnet, <- app_assoc. done.
Qed.

(** What a response assigns, for an attribute that is one. *)
Lemma merged_attribute resp (before : gmap string jsval) attr :
  attr <> "__proto__" ->
  merged resp before attr =
    match assigns resp attr with
    | Some v => Some v
    | None => before !! attr
    end.
Proof.
  intros Hattr. unfold merged.
  by destruct (String.eqb_spec attr "__proto__").
Qed.

(** The events of a quiet response are none of the signals of [fetch]. *)
Lemma quiet_raised resp (e : emission) :
  quiet resp = true -> raised_by_set resp e ->
  signal e <> "g:fetched" /\ signal e <> "g:error".
Proof.
  intros Hquiet [Hin | (attr & Hattr & Hin)].
  - apply list_elem_of_singleton in Hin as ->. split; discriminate.
  - unfold quiet in Hquiet. rewrite forallb_forall in Hquiet.
    apply list_elem_of_In in Hattr. specialize (Hquiet attr Hattr).
    apply negb_true_iff in Hquiet.
    split; intros Heq; rewrite Heq in Hin;
      apply list_elem_of_In in Hin;
      (assert (existsb
                 (fun part => String.eqb part "g:fetched" || String.eqb part "g:error")
                 (words ("change:" +:+ attr)) = true) as Hex;
       [apply existsb_exists; eexists; split; [exact Hin | reflexivity]
       | congruence]).
Qed.

Lemma occurrences_app name (l r : list emission) :
  occurrences name (l ++ r) = occurrences name l + occurrences name r.
Proof. unfold occurrences. by rewrite filter_app, length_app. Qed.

Lemma occurrences_changes resp (new : list emission) :
  quiet resp = true -> Forall (raised_by_set resp) new ->
  occurrences "g:fetched" new = 0 /\ occurrences "g:error" new = 0.
Proof.
  intros Hquiet. unfold occurrences.
  induction 1 as [|e rest He _ [IHf IHe]]; [done|].
  destruct (quiet_raised resp e Hquiet He) as [Hf Herr].
  rewrite !filter_cons. rewrite !decide_False by done. done.
Qed.

Lemma drop_emitted {A : Type} (l new : list A) : drop (length l) (l ++ new) = new.
Proof. by rewrite drop_app_length. Qed.

(** A fetched model with an [_id], answered with an object that repeats
    one value and brings a new one: only the new attribute is announced
    before ['g:fetched']. *)
Example fetch_trace :
  let w' := exec (fetch_then (Succeeded (VObj [("_id", VStr "abc"); ("name", VStr "x")])))
                 (fresh {["_id" := VStr "abc"]}) in
  map signal (emitted w') = ["change:name"; "change"; "g:fetched"]
  /\ network w' = [Request "GET" [("path", VStr "collection/abc"); ("error", VNull)]].
Proof. split; vm_compute; reflexivity. Qed.

(** The path is built by string conversion, whatever [_id] holds. *)
Example fetch_numeric_id :
  network (exec fetch (fresh {["_id" := VNum 42]}))
    = [Request "GET" [("path", VStr "collection/42"); ("error", VNull)]].
Proof. vm_compute. reflexivity. Qed.

(** Numbers print as JavaScript prints them: in full below 2^53, then
    with the digits that tell the double apart, and in exponent notation
    from 10^21. *)
Example number_printing :
  to_string (VNum 9007199254740991) = "9007199254740991"
  /\ to_string (VNum (2 ^ 60)) = "1152921504606847000"
  /\ to_string (VNum (10 ^ 21)) = "1e+21"
  /\ to_string (VNum (- 2 ^ 70)) = "-1.1805916207174113e+21".
Proof. repeat split; vm_compute; reflexivity. Qed.

(** An event name is split at white space, as [split(/\s+/)] does. *)
Example trigger_splits :
  map signal (emitted (exec (trigger "all  done " []) (fresh ∅)))
    = ["all"; "done"; ""].
Proof. vm_compute. reflexivity. Qed.

(** [__proto__] in a response makes no attribute; a name inherited from
    Object.prototype is announced as changed even when it is set to
    [undefined]. *)
Example set_inherited_names :
  attributes (exec (set (VObj [("__proto__", VNum 5); ("a", VNum 1)])) (fresh ∅))
    = {["a" := VNum 1]}
  /\ map signal (emitted (exec (set (VStr "toString")) (fresh ∅)))
      = ["change:toString"; "change"]
  /\ map signal (emitted (exec (set (VStr "name")) (fresh ∅))) = [].
Proof. repeat split; vm_compute; reflexivity. Qed.

(** C1, as amended.  A successful fetch answered with [{a: 1, b: 2}]
    sets [a] to 1 and [b] to 2 on top of the attributes the model already
    has, which it keeps; the state is exactly [{a: 1, b: 2}] when the model
    had no attribute other than [a] and [b].  ['g:fetched'] is emitted once,
    last, on the state so written. *)
Theorem fetch_ab_overrides w :
  let w' := exec (fetch_then (Succeeded resp_ab)) w in
  attributes w' = <["b" := VNum 2]> (<["a" := VNum 1]> (attributes w))
  /\ (dom (attributes w) ⊆ {["a"; "b"]} ->
      attributes w' = {["a" := VNum 1; "b" := VNum 2]})
  /\ occurrences "g:fetched" (drop (length (emitted w)) (emitted w')) = 1
  /\ last (emitted w') = Some (Emission "g:fetched" [] (attributes w')).
Proof.
  destruct (fetch_then_succeeded resp_ab w)
    as (new & Hemit & Hchg & _ & _ & Hattrs).
  simpl in *.
  set (w' := exec (fetch_then (Succeeded resp_ab)) w) in *.
  assert (Hmerge : attributes w' = <["b" := VNum 2]> (<["a" := VNum 1]> (attributes w))).
  { apply map_eq. intros attr. rewrite Hattrs. unfold merged, assigns; simpl.
    destruct (String.eqb_spec attr "__proto__") as [Hproto|_].
    { subst attr. by rewrite !lookup_insert_ne. }
    destruct (String.eqb_spec attr "b") as [->|Hb].
    - by rewrite lookup_insert_eq.
    - rewrite lookup_insert_ne by done.
      destruct (String.eqb_spec attr "a") as [->|Ha].
      + by rewrite lookup_insert_eq.
      + by rewrite lookup_insert_ne. }
  repeat split.
  - done.
  - intros Hdom. rewrite Hmerge. apply map_eq. intros attr.
    destruct (decide (attr = "b")) as [->|Hb]; [by simplify_map_eq|].
    destruct (decide (attr = "a")) as [->|Ha]; [by simplify_map_eq|].
    rewrite !lookup_insert_ne by done. rewrite lookup_singleton_ne by done.
    apply not_elem_of_dom. intros Hin%Hdom.
    apply elem_of_union in Hin as [Hin%elem_of_singleton|Hin%elem_of_singleton];
      congruence.
  - assert (Hquiet : quiet resp_ab = true) by (vm_compute; reflexivity).
    rewrite Hemit, drop_emitted, occurrences_app.
    destruct (occurrences_changes resp_ab new Hquiet Hchg) as [-> _]. reflexivity.
  - rewrite Hemit, !app_assoc. apply last_snoc.
Qed.

Lemma fetch_ab_overrides_witness :
  attributes (exec (fetch_then (Succeeded resp_ab)) (fresh ∅))
    = {["a" := VNum 1; "b" := VNum 2]}.
Proof.
  apply (proj1 (proj2 (fetch_ab_overrides (fresh ∅)))).
  simpl. rewrite dom_empty_L. apply empty_subseteq.
Defined.

(** C1, as stated, fails on a model that has an [_id]: the attribute is
    still there after the fetch, next to [a] and [b]. *)
Lemma fetch_ab_not_exact :
  let w' := exec (fetch_then (Succeeded resp_ab)) (fresh {["_id" := VStr "abc"]}) in
  attributes w' = {["_id" := VStr "abc"; "a" := VNum 1; "b" := VNum 2]}
  /\ attributes w' <> {["a" := VNum 1; "b" := VNum 2]}.
Proof.
  split.
  - vm_compute. reflexivity.
  - intros Heq. apply (f_equal (fun m => m !! "_id")) in Heq.
    vm_compute in Heq. discriminate.
Qed.

(** C2.  When the request fails, the attributes after the error callback
    are the attributes before [fetch] was called, and ['g:error'] is what
    the model emits. *)
Theorem fetch_failed_keeps_state w err :
  let w' := exec (fetch_then (Failed err)) w in
  attributes w' = attributes w
  /\ emitted w' = emitted w ++ [Emission "g:error" [] (attributes w)].
Proof. rewrite fetch_then_failed. done. Qed.

(** C3.  For a model whose [_id] is the identifier [i], [fetch] sends
    exactly one request, a read of the path ['collection/' + i]; nothing
    more is sent when the request ends, whichever way. *)
Theorem fetch_requests_collection w (i : string)
    (Hid : attributes w !! "_id" = Some (VStr i)) :
  let req := Request "GET" [("path", VStr ("collection/" +:+ i)); ("error", VNull)] in
  network (exec fetch w) = network w ++ [req]
  /\ forall o, network (exec (fetch_then o) w) = network w ++ [req].
Proof.
  assert (Hreq : request_of w =
                 Request "GET" [("path", VStr ("collection/" +:+ i)); ("error", VNull)]).
  { unfold request_of. by rewrite Hid. }
  intros req. subst req. rewrite <- Hreq. split.
  - unfold exec. by rewrite fetch_run.
  - intros [resp|err].
    + by destruct (fetch_then_succeeded resp w) as (? & _ & _ & _ & -> & _).
    + by rewrite fetch_then_failed.
Qed.

Lemma fetch_requests_collection_witness :
  network (exec fetch (fresh {["_id" := VStr "5f0c"]}))
    = [Request "GET" [("path", VStr "collection/5f0c"); ("error", VNull)]].
Proof.
  refine (proj1 (fetch_requests_collection (fresh {["_id" := VStr "5f0c"]}) "5f0c" _)).
  vm_compute. reflexivity.
Defined.

(** C6.  Two failures, whatever they are, leave the same world behind:
    one ['g:error'] with no argument, emitted on the untouched attributes,
    and the one request of the invocation; nothing of the failure shows. *)
Theorem fetch_failures_alike w (e1 e2 : failure) :
  exec (fetch_then (Failed e1)) w = exec (fetch_then (Failed e2)) w
  /\ emitted (exec (fetch_then (Failed e1)) w)
       = emitted w ++ [Emission "g:error" [] (attributes w)]
  /\ network (exec (fetch_then (Failed e1)) w) = network w ++ [request_of w].
Proof. rewrite !fetch_then_failed. done. Qed.

(** C7, as amended.  On a model whose [_id] converts to a string, one
    call of [fetch] sends exactly one read request, however the request
    ends, and the request carries no [timeout] setting.  On a model whose
    [_id] does not convert the call throws and leaves everything as it
    was: no request is sent. *)
Theorem fetch_call_one_request w o :
  let id := default VUndefined (attributes w !! "_id") in
  let w' := exec (fetch_call_then o) w in
  (converts id = true ->
     network w' = network w ++ [request_of w]
     /\ length (network w') = S (length (network w))
     /\ verb (request_of w) = "GET"
     /\ obj_get "timeout" (options (request_of w)) = None)
  /\ (converts id = false -> w' = w).
Proof.
  cbv zeta. split; intros Hid.
  - assert (Hrun : exec (fetch_call_then o) w = exec (fetch_then o) w).
    { unfold exec, fetch_call_then, fetch_call, fetch_then, mbind, M_bind, get.
      simpl. rewrite Hid. by destruct (fetch w). }
    assert (Hnet : network (exec (fetch_then o) w) = network w ++ [request_of w]).
    { destruct o as [resp|err].
      - by destruct (fetch_then_succeeded resp w) as (? & _ & _ & _ & -> & _).
      - by rewrite fetch_then_failed. }
    rewrite Hrun, Hnet, length_app. simpl. repeat split; [lia..].
  - unfold exec, fetch_call_then, fetch_call, mbind, M_bind, get.
    simpl. by rewrite Hid.
Qed.

Lemma fetch_call_one_request_witness :
  network (exec (fetch_call_then (Failed (Failure 404 "error" "Not Found")))
                (fresh {["_id" := VStr "abc"]}))
    = [Request "GET" [("path", VStr "collection/abc"); ("error", VNull)]]
  /\ exec (fetch_call_then (Succeeded VNull))
          (fresh {["_id" := VObj [("toString", VNum 1)]]})
      = fresh {["_id" := VObj [("toString", VNum 1)]]}.
Proof.
  split.
  - refine (eq_trans
              (proj1 (proj1 (fetch_call_one_request
                               (fresh {["_id" := VStr "abc"]})
                               (Failed (Failure 404 "error" "Not Found"))) _)) _).
    + vm_compute. reflexivity.
    + vm_compute. reflexivity.
  - refine (proj2 (fetch_call_one_request
                     (fresh {["_id" := VObj [("toString", VNum 1)]]})
                     (Succeeded VNull)) _).
    vm_compute. reflexivity.
Defined.

(** C7, as stated, fails on a model whose [_id] is an object with a
    [toString] property of its own: the call throws a TypeError while the
    path is built, and no request is sent, whatever outcome is on offer. *)
Lemma fetch_call_sends_nothing :
  let w := fresh {["_id" := VObj [("toString", VNum 1)]]} in
  (fetch_call w).1 = Threw "TypeError"
  /\ network (exec (fetch_call_then (Succeeded VNull)) w) = []
  /\ network (exec (fetch_call_then (Failed (Failure 500 "error" ""))) w) = [].
Proof. repeat split; vm_compute; reflexivity. Qed.

(** C8.  The success callback merges the response into the attributes: an
    attribute that was set on the model before the fetch and that the
    response does not assign has, after the fetch, the value it had
    before -- the [_id] the path was built from among them. *)
Theorem fetch_keeps_unassigned w resp (attr : string) (v : jsval)
    (Hset : attributes w !! attr = Some v)
    (Hout : attr ∉ assigned resp) :
  attributes (exec (fetch_then (Succeeded resp)) w) !! attr = Some v.
Proof.
  destruct (fetch_then_succeeded resp w) as (new & _ & _ & _ & _ & Hattrs).
  cbv zeta in *. rewrite Hattrs. unfold merged.
  destruct (String.eqb attr "__proto__"); [done|].
  unfold assigns, assigned in *. destruct (attrs_of resp) as [attrs|]; [|done].
  by rewrite obj_get_None.
Qed.

Lemma fetch_keeps_unassigned_witness :
  attributes (exec (fetch_then (Succeeded resp_ab)) (fresh {["_id" := VStr "abc"]}))
    !! "_id" = Some (VStr "abc").
Proof.
  refine (fetch_keeps_unassigned
            (fresh {["_id" := VStr "abc"]}) resp_ab "_id" (VStr "abc") _ _).
  - vm_compute. reflexivity.
  - apply (bool_decide_unpack _). vm_compute. reflexivity.
Defined.




(** C10.  [fetch] does not check the identifier: on a model without an
    [_id] the request is sent all the same, for ['collection/undefined']. *)
Theorem fetch_without_id w (Hnone : attributes w !! "_id" = None) :
  network (exec fetch w)
    = network w ++ [Request "GET" [("path", VStr "collection/undefined");
                                   ("error", VNull)]].
Proof.
  unfold exec. rewrite fetch_run. simpl. unfold request_of. by rewrite Hnone.
Qed.

Lemma fetch_without_id_witness :
  network (exec fetch (fresh ∅))
    = [Request "GET" [("path", VStr "collection/undefined"); ("error", VNull)]].
Proof.
  apply (fetch_without_id (fresh ∅)). vm_compute. reflexivity.
Defined.

End Fetch.

(* ===================================================================== *)
(** ** The provisioning sequence *)
(* ===================================================================== *)

Section Provisioning.
Import Ansible.

Implicit Types (facts : string -> string) (srv : server).

Lemma append_empty (s : string) : s +:+ "" = s.
Proof.
  induction s as [|c s IH]; [done|].
  change (String c (s +:+ "") = String c s). by rewrite IH.
Qed.

Lemma render_var facts (x : string) : render facts [Var x] = facts x.
Proof. apply append_empty. Qed.

(** Declaring the same thing again finds it as declared. *)
Lemma ensure_idempotent facts (res : resource) (st : resource_state) srv :
  ensure facts res st (ensure facts res st srv) = ensure facts res st srv.
Proof.
  destruct res as [u|a|names], st; simpl.
  - by rewrite insert_insert_eq.
  - by rewrite delete_delete_eq.
  - rewrite insert_insert_eq. by destruct (current a).
  - rewrite delete_delete_eq. f_equal. repeat case_decide; congruence.
  - f_equal. by rewrite <- (assoc_L (∪)), (idemp_L (∪)).
  - f_equal. apply difference_twice_L.
Qed.

Lemma changed_same srv : changed srv srv = false.
Proof. unfold changed. by rewrite bool_decide_eq_false_2 by auto. Qed.

Lemma ensure_commute facts (r1 r2 : resource) (s1 s2 : resource_state) srv :
  independent r1 r2 ->
  ensure facts r1 s1 (ensure facts r2 s2 srv)
    = ensure facts r2 s2 (ensure facts r1 s1 srv).
Proof. destruct r1, r2, s1, s2; simpl; done. Qed.

Lemma settled_ensure facts d srv : settled facts d (ensure facts d.1 d.2 srv).
Proof. apply ensure_idempotent. Qed.

(** A settled declaration stays settled through an independent one. *)
Lemma settled_frame facts d d' srv :
  independent d.1 d'.1 ->
  settled facts d srv -> settled facts d (ensure facts d'.1 d'.2 srv).
Proof.
  unfold settled. intros Hind Hset.
  by rewrite ensure_commute, Hset.
Qed.

Lemma settled_provision facts d (l : list (resource * resource_state)) srv :
  Forall (fun d' => independent d.1 d'.1) l ->
  settled facts d srv -> settled facts d (provision facts l srv).1.
Proof.
  revert srv. induction l as [|[res st] rest IH]; intros srv Hind Hset; [done|].
  apply Forall_cons in Hind as [Hhead Hrest]. simpl.
  specialize (IH (ensure facts res st srv) Hrest
                 (settled_frame facts d (res, st) srv Hhead Hset)).
  by destruct (provision facts rest (ensure facts res st srv)).
Qed.

(** After a run, every declaration of an interference-free list is
    settled. *)
Lemma provision_settles facts (l : list (resource * resource_state)) srv :
  all_independent l -> Forall (fun d => settled facts d (provision facts l srv).1) l.
Proof.
  revert srv. induction l as [|[res st] rest IH]; intros srv Hall; [done|].
  destruct Hall as [Hhead Hrest]. simpl.
  pose proof (IH (ensure facts res st srv) Hrest) as Htail.
  pose proof (settled_provision facts (res, st) rest (ensure facts res st srv)
                Hhead (settled_ensure facts (res, st) srv)) as Hfirst.
  destruct (provision facts rest (ensure facts res st srv)) as [final flags].
  by constructor.
Qed.

(** Running settled declarations changes nothing and reports no change. *)
Lemma provision_settled facts (l : list (resource * resource_state)) srv :
  Forall (fun d => settled facts d srv) l ->
  provision facts l srv = (srv, replicate (length l) false).
Proof.
  induction 1 as [|[res st] rest Hhead _ IH]; [done|].
  simpl. unfold settled in Hhead; simpl in Hhead.
  by rewrite Hhead, IH, changed_same.
Qed.

Lemma provision_twice facts (l : list (resource * resource_state)) srv :
  all_independent l ->
  provision facts l (provision facts l srv).1
    = ((provision facts l srv).1, replicate (length l) false).
Proof. intros Hall. by apply provision_settled, provision_settles. Qed.

(** C5.  The play runs, after the package cache refresh and the MongoDB
    role it starts with, these steps in this order: install the OS
    packages, clone the source tree at the configured version, install
    [girder-client], then ensure the admin user, the assetstore and the
    plugin through the service's API. *)
Theorem provisioning_order (galaxy : string -> list task) facts :
  map (step_of facts) (run_order galaxy playbook) =
    RefreshPackageCache ::
    map (step_of facts) (galaxy "Stouts.mongodb") ++
    [ InstallPackages ["git"; "libffi-dev"; "build-essential"; "python2.7-dev";
                       "python-pip"; "libjpeg-dev"; "libssl-dev"; "zlib1g-dev"];
      CloneSource "https://github.com/girder/girder.git" (facts "girder_version");
      InstallLibrary "girder-client";
      EnsureUser "girder" present;
      EnsureAssetstore "Primary assetstore" present;
      EnsurePlugins ["gravatar"] present ].
Proof.
  unfold run_order, playbook; simpl.
  change (role_tasks galaxy (Role "Stouts.mongodb" (Some "root")))
    with (galaxy "Stouts.mongodb").
  rewrite !map_app, <- app_assoc.
  rewrite <- (render_var facts "girder_version"). reflexivity.
Qed.

(** C4.  The administrative steps of the play are the three declarations
    of the admin user, the filesystem assetstore ['Primary assetstore'] and
    the [gravatar] plugin, each with state [present]; run again on the
    service a first run leaves, from any starting state, they leave it as
    it is and none reports a change. *)
Theorem provisioning_idempotent facts srv :
  let steps := declarations (post_tasks playbook) in
  let once := (provision facts steps srv).1 in
  steps = [ (User admin_user, present);
            (Assetstore primary_assetstore, present);
            (Plugins ["gravatar"], present) ]
  /\ provision facts steps once = (once, [false; false; false]).
Proof.
  split; [reflexivity|].
  apply (provision_twice facts (declarations (post_tasks playbook)) srv).
  simpl. repeat constructor.
Qed.

End Provisioning.

(* ===================================================================== *)
(** ** [fetch] in sequence, overlapped and interleaved *)
(* ===================================================================== *)

Section FetchComposition.

Implicit Types (w : world) (resp : jsval) (err : failure) (o : outcome).

Lemma exec_bind {A B : Type} (m : M A) (f : A -> M B) w :
  exec (m ≫= f) w = exec (f (m w).1) (m w).2.
Proof. unfold exec, mbind, M_bind. by destruct (m w). Qed.

Lemma fetch_then_network o w :
  network (exec (fetch_then o) w) = network w ++ [request_of w].
Proof.
  destruct o as [resp|err].
  - by destruct (fetch_then_succeeded resp w) as (? & _ & _ & _ & -> & _).
  - by rewrite fetch_then_failed.
Qed.

(** The completion of a request of [fetch], on the model as it is then. *)
Lemma completion_failed err w :
  exec (settle (Promise [fetch_done] [fetch_error]) (Failed err)) w =
    World (attributes w) (emitted w ++ [Emission "g:error" [] (attributes w)])
          (network w).
Proof. reflexivity. Qed.

Lemma completion_succeeded resp w :
  let w' := exec (settle (Promise [fetch_done] [fetch_error]) (Succeeded resp)) w in
  network w' = network w
  /\ forall attr, attributes w' !! attr = merged resp (attributes w) attr.
Proof.
  destruct (set_spec resp w) as (new & _ & _ & _ & Hnet & Hattrs).
  unfold exec in *. simpl.
  unfold fetch_done, mbind, M_bind, trigger.
  destruct (set resp w) as [[] w1]; simpl in *. done.
Qed.

Lemma completion_network o w :
  network (exec (settle (Promise [fetch_done] [fetch_error]) o) w) = network w.
Proof.
  destruct o as [resp|err]; [|done].
  apply (completion_succeeded resp w).
Qed.

Lemma fetch_interleaved_run (between : M unit) o w :
  exec (fetch_interleaved between o) w =
    exec (settle (Promise [fetch_done] [fetch_error]) o)
         (exec between (exec fetch w)).
Proof.
  unfold fetch_interleaved. rewrite exec_bind, fetch_run. simpl.
  rewrite exec_bind. unfold exec at 3 4. rewrite fetch_run. done.
Qed.

(** X1.  The path is built from the [_id] the model has when [fetch] is
    called: once a response has assigned a new [_id], the next invocation
    reads the collection of that identifier. *)
Theorem refetch_uses_new_id w resp (j : string) o
    (Hid : assigns resp "_id" = Some (VStr j)) :
  network (exec (fetch_twice (Succeeded resp) o) w) =
    network w ++ [request_of w;
                  Request "GET" [("path", VStr ("collection/" +:+ j));
                                 ("error", VNull)]].
Proof.
  unfold fetch_twice. rewrite exec_bind.
  change (fetch_then (Succeeded resp) w).2
    with (exec (fetch_then (Succeeded resp)) w).
  rewrite !fetch_then_network, <- app_assoc. simpl. do 2 f_equal.
  destruct (fetch_then_succeeded resp w) as (? & _ & _ & _ & _ & Hattrs).
  cbv zeta in Hattrs. unfold request_of.
  by rewrite Hattrs, merged_attribute, Hid.
Qed.

Lemma refetch_uses_new_id_witness :
  network (exec (fetch_twice (Succeeded (VObj [("_id", VStr "xyz")]))
                             (Failed (Failure 500 "error" "")))
                (fresh {["_id" := VStr "abc"]}))
    = [Request "GET" [("path", VStr "collection/abc"); ("error", VNull)];
       Request "GET" [("path", VStr "collection/xyz"); ("error", VNull)]].
Proof.
  refine (eq_trans
            (refetch_uses_new_id (fresh {["_id" := VStr "abc"]})
               (VObj [("_id", VStr "xyz")]) "xyz" (Failed (Failure 500 "error" "")) _) _).
  - vm_compute. reflexivity.
  - vm_compute. reflexivity.
Defined.


(** X3.  With two requests in flight, both were built from the model as
    it was at the calls, and the response that arrives last wins: where
    both assign an attribute, the model ends with the value of the request
    that completed last, here the one issued first. *)
Theorem overlapped_last_completion_wins w :
  (forall o1 o2,
     network (exec (fetch_overlapped o1 o2) w)
       = network w ++ [request_of w; request_of w])
  /\ forall r1 r2 attr,
       attr <> "__proto__" ->
       attributes (exec (fetch_overlapped (Succeeded r1) (Succeeded r2)) w) !! attr =
         match assigns r1 attr with
         | Some v => Some v
         | None =>
             match assigns r2 attr with
             | Some v => Some v
             | None => attributes w !! attr
             end
         end.
Proof.
  assert (Hrun : forall o1 o2,
             exec (fetch_overlapped o1 o2) w =
               exec (settle (Promise [fetch_done] [fetch_error]) o1)
                 (exec (settle (Promise [fetch_done] [fetch_error]) o2)
                    (exec fetch (exec fetch w)))).
  { intros o1 o2. unfold fetch_overlapped.
    rewrite exec_bind, fetch_run. simpl. rewrite exec_bind, fetch_run. simpl.
    rewrite exec_bind. unfold exec at 3 4 5. by rewrite !fetch_run. }
  split.
  - intros o1 o2. rewrite Hrun, !completion_network.
    unfold exec. rewrite !fetch_run. simpl. by rewrite <- app_assoc.
  - intros r1 r2 attr Hattr. rewrite Hrun.
    rewrite (proj2 (completion_succeeded r1 _)), merged_attribute by done.
    rewrite (proj2 (completion_succeeded r2 _)), merged_attribute by done.
    unfold exec. by rewrite !fetch_run.
Qed.

Lemma overlapped_last_completion_wins_witness :
  attributes (exec (fetch_overlapped (Succeeded (VObj [("name", VStr "first")]))
                                     (Succeeded (VObj [("name", VStr "second")])))
                   (fresh {["_id" := VStr "abc"]})) !! "name"
    = Some (VStr "first").
Proof.
  refine (eq_trans
            (proj2 (overlapped_last_completion_wins (fresh {["_id" := VStr "abc"]}))
               (VObj [("name", VStr "first")]) (VObj [("name", VStr "second")])
               "name" _) _).
  - discriminate.
  - vm_compute. reflexivity.
Defined.

(** X4.  A response that assigns nothing -- [null], [undefined], an empty
    object or an empty array -- still counts as a success: the attributes
    stay as they are, no change event is raised, and ['g:fetched'] is
    emitted. *)
Theorem fetch_empty_response w resp (Hempty : assigned resp = []) :
  exec (fetch_then (Succeeded resp)) w =
    World (attributes w)
          (emitted w ++ [Emission "g:fetched" [] (attributes w)])
          (network w ++ [request_of w]).
Proof.
  unfold fetch_then. rewrite exec_bind, fetch_run. simpl.
  unfold exec, fetch_done, mbind, M_bind, set, assigned in *.
  destruct (attrs_of resp) as [attrs|]; [|done].
  apply fmap_nil_inv in Hempty as ->. done.
Qed.

Lemma fetch_empty_response_witness :
  exec (fetch_then (Succeeded VNull)) (fresh {["_id" := VStr "abc"]}) =
    World {["_id" := VStr "abc"]}
          [Emission "g:fetched" [] {["_id" := VStr "abc"]}]
          [Request "GET" [("path", VStr "collection/abc"); ("error", VNull)]].
Proof.
  refine (eq_trans
            (fetch_empty_response (fresh {["_id" := VStr "abc"]}) VNull _) _).
  - vm_compute. reflexivity.
  - vm_compute. reflexivity.
Defined.

(** X5.  The callbacks act on the model as it is when the request
    completes, whatever ran against it since the call: the completion
    sends no request, a failure changes no attribute, and a success
    overrides only what the response assigns, so that attributes written
    in between survive. *)
Theorem interleaved_completion (between : M unit) w :
  let w1 := exec between (exec fetch w) in
  (forall o, network (exec (fetch_interleaved between o) w) = network w1)
  /\ (forall err,
        attributes (exec (fetch_interleaved between (Failed err)) w) = attributes w1)
  /\ forall resp attr,
       attr <> "__proto__" ->
       attributes (exec (fetch_interleaved between (Succeeded resp)) w) !! attr =
         match assigns resp attr with
         | Some v => Some v
         | None => attributes w1 !! attr
         end.
Proof.
  cbv zeta. repeat split.
  - intros o. by rewrite fetch_interleaved_run, completion_network.
  - intros err. by rewrite fetch_interleaved_run, completion_failed.
  - intros resp attr Hattr. rewrite fetch_interleaved_run.
    by rewrite (proj2 (completion_succeeded resp _)), merged_attribute.
Qed.

Lemma interleaved_completion_witness :
  attributes (exec (fetch_interleaved (set (VObj [("seen", VBool true)]))
                                      (Succeeded resp_ab))
                   (fresh {["_id" := VStr "abc"]})) !! "seen"
    = Some (VBool true).
Proof.
  refine (eq_trans
            (proj2 (proj2 (interleaved_completion
                             (set (VObj [("seen", VBool true)]))
                             (fresh {["_id" := VStr "abc"]})))
               resp_ab "seen" _) _).
  - discriminate.
  - vm_compute. reflexivity.
Defined.

(** X6.  Models whose [_id] are different strings never ask for the
    same path. *)
Theorem string_ids_distinct_paths (w1 w2 : world) (i j : string)
    (Hi : attributes w1 !! "_id" = Some (VStr i))
    (Hj : attributes w2 !! "_id" = Some (VStr j))
    (Hsame : last (network (exec fetch w1)) = last (network (exec fetch w2))) :
  i = j.
Proof.
  unfold exec in Hsame. rewrite !fetch_run in Hsame. simpl in Hsame.
  rewrite !last_snoc in Hsame. unfold request_of in Hsame.
  rewrite Hi, Hj in Hsame. simpl in Hsame.
  unfold concat, String.append in Hsame. simpl in Hsame. congruence.
Qed.

Lemma string_ids_distinct_paths_witness : "abc" = "abc".
Proof.
  refine (string_ids_distinct_paths
            (fresh {["_id" := VStr "abc"]})
            (World {["_id" := VStr "abc"; "name" := VStr "n"]} [] [])
            "abc" "abc" _ _ _); vm_compute; reflexivity.
Defined.

(** X9.  Listeners never see a half-written model: every event of a
    successful fetch, the change events of [set] as well as ['g:fetched'],
    is emitted on the attributes the fetch ends with. *)
Theorem fetch_events_after_write w resp (e : emission)
    (Hnew : e ∈ drop (length (emitted w))
                     (emitted (exec (fetch_then (Succeeded resp)) w))) :
  seen e = attributes (exec (fetch_then (Succeeded resp)) w).
Proof.
  destruct (fetch_then_succeeded resp w) as (new & Hemit & _ & Hseen & _ & _).
  cbv zeta in *. rewrite Hemit, drop_emitted in Hnew.
  apply elem_of_app in Hnew as [Hnew|Hnew].
  - rewrite Forall_forall in Hseen. by apply Hseen.
  - by apply list_elem_of_singleton in Hnew as ->.
Qed.

Lemma fetch_events_after_write_witness :
  seen (Emission "change:a" [VNum 1; no_options]
          {["_id" := VStr "abc"; "a" := VNum 1; "b" := VNum 2]})
    = attributes (exec (fetch_then (Succeeded resp_ab)) (fresh {["_id" := VStr "abc"]})).
Proof.
  refine (fetch_events_after_write (fresh {["_id" := VStr "abc"]}) resp_ab _ _).
  apply list_elem_of_lookup. exists 0. vm_compute. reflexivity.
Defined.

End FetchComposition.

(* ===================================================================== *)
(** ** The tasks of the play *)
(* ===================================================================== *)

Section Tasks.
Import Ansible.

(** X7.  A task that logs in to the service does so as an administrator
    that an earlier task of the sequence has declared present, with that
    login and that password. *)
Theorem credentials_declared_before_use (i : nat) (t : task) (who : string * string)
    (Ht : authored_tasks !! i = Some t)
    (Hwho : credentials t = Some who) :
  exists j t', j < i /\ authored_tasks !! j = Some t' /\ declares_admin t' = Some who.
Proof.
  do 7 (destruct i as [|i];
        [ injection Ht as <-; try discriminate Hwho;
          (injection Hwho as <-; exists 4; eexists;
           (split; [lia | split; reflexivity]))
        | ]).
  discriminate Ht.
Qed.

Lemma credentials_declared_before_use_witness :
  exists j t', j < 6 /\ authored_tasks !! j = Some t'
               /\ declares_admin t' = Some ("girder", "girder").
Proof.
  refine (credentials_declared_before_use 6 _ ("girder", "girder") _ _);
    vm_compute; reflexivity.
Defined.

(** X8.  Root is taken for the package managers and for nothing else: the
    tasks that call [apt] or [pip] run as root, the checkout of the source
    and the calls to the service's API run unprivileged. *)
Theorem root_only_for_packages (i : nat) (t : task)
    (Ht : authored_tasks !! i = Some t) :
  become_user t = Some "root" <-> installs_packages t = true.
Proof.
  do 7 (destruct i as [|i]; [injection Ht as <-; by split|]).
  discriminate Ht.
Qed.

Lemma root_only_for_packages_witness :
  become_user (Task "Install girder-client" (pip "girder-client") (Some "root")
                 [] None None) = Some "root"
  <-> installs_packages (Task "Install girder-client" (pip "girder-client")
                           (Some "root") [] None None) = true.
Proof.
  refine (root_only_for_packages 3 _ _). vm_compute. reflexivity.
Defined.

End Tasks.
